(** * Cache synchronisation of the CRUD pages (comments, todos, posts, recipes)

    Every page fetches its collection with [useQuery], keeps it in the query
    cache under its own key, and patches that entry from the [onSuccess]
    handler of three mutations.  The pages are embedded one module each, the
    handlers written as in the source; the statements at the end quantify over
    the four pages through [Resource] and [page].

    Conventions.  An [id] is a JSON number compared with [===] and [!==],
    here an integer compared with [Z.eqb].  A cache entry is [T[] | undefined],
    here [option (list T)].  The pages share one [QueryClient] but each reads
    and writes only the entry under its own key, so a page carries its entry.
    What a request sends is not modelled: the reply of the server is an input
    of its own, either the body of the response or the rejection. *)

From Stdlib Require Import ZArith Ascii String List Bool Lia Permutation.
Import ListNotations.

Set Implicit Arguments.

(** ** What the pages use of axios, the console and the query client *)

(** A rejected [await axios.*(...)]. *)
Inductive AxiosError : Type :=
| NetworkError
| BadStatus (code : Z).

(** A promise once it is settled. *)
Inductive Settled (A : Type) : Type :=
| Resolved (data : A)
| Rejected (error : AxiosError).
Arguments Resolved {A} data.
Arguments Rejected {A} error.

Inductive ConsoleLine : Type :=
| console_log (msg : string)
| console_log_id (msg : string) (id : Z)        (* a template literal ending in ${id} *)
| console_error (msg : string) (error : AxiosError).

Definition is_error (line : ConsoleLine) : bool :=
  match line with
  | console_error _ _ => true
  | _ => false
  end.

(** What one page owns: its entry of the query cache ([T[] | undefined]),
    the state of its [useState] hooks, and what it wrote to the console. *)
Record Page (T L : Type) : Type := mkPage {
  cache : option (list T);
  local : L;
  console : list ConsoleLine
}.

Section QueryClient.
Context {T L : Type}.

(** [queryClient.setQueryData(key, updater)]: the updater receives the
    current data; a result of [undefined] leaves the entry as it is. *)
Definition setQueryData (updater : option (list T) -> option (list T))
           (p : Page T L) : Page T L :=
  match updater (cache p) with
  | Some data => mkPage (Some data) (local p) (console p)
  | None => p
  end.

(** A [useState] setter. *)
Definition setState (next : L) (p : Page T L) : Page T L :=
  mkPage (cache p) next (console p).

Definition writeConsole (lines : list ConsoleLine) (p : Page T L) : Page T L :=
  mkPage (cache p) (local p) (console p ++ lines).

(** [useQuery]: once [queryFn] has resolved, its value is the entry's data. *)
Definition queryResolved (data : list T) (p : Page T L) : Page T L :=
  mkPage (Some data) (local p) (console p).

(** The options handed to [useMutation]; [V] the variables of [mutate],
    [W] the body of the server's reply, [D] what [mutationFn] resolves to.
    [mutationFn] awaits one axios call, whose outcome is its second
    argument, and may print before it. *)
Record MutationOptions (V W D : Type) : Type := mkMutation {
  mutationFn : V -> Settled W -> list ConsoleLine * Settled D;
  onSuccess : D -> V -> Page T L -> Page T L;
  onError : option (AxiosError -> V -> Page T L -> Page T L)
}.

(** [mutation.mutate(variables)], from the call to the end of the handler
    that runs when the promise settles. *)
Definition mutate {V W D : Type} (m : MutationOptions V W D)
           (variables : V) (reply : Settled W) (p : Page T L) : Page T L :=
  let (lines, outcome) := mutationFn m variables reply in
  let p := writeConsole lines p in
  match outcome with
  | Resolved data => onSuccess m data variables p
  | Rejected error =>
      match onError m with
      | Some handler => handler error variables p
      | None => p
      end
  end.

(** What [mutationFn] resolved to, if it did. *)
Definition returnedBy {V W D : Type} (m : MutationOptions V W D)
           (variables : V) (reply : Settled W) : option D :=
  match snd (mutationFn m variables reply) with
  | Resolved data => Some data
  | Rejected _ => None
  end.
End QueryClient.

(** The Records of a cache entry; an absent entry shows none. *)
Definition records {T : Type} (c : option (list T)) : list T :=
  match c with
  | Some l => l
  | None => []
  end.

Definition size {T : Type} (c : option (list T)) : nat := length (records c).

(** ** The comma-separated inputs

    The tags of a post and the ingredients of a recipe are shown in a text
    input as [arr.join(", ")] and read back as [value.split(", ")]. *)

(** [s.split(", ")]: the pieces between the occurrences of the separator,
    found from the left and not overlapping; never an empty array. *)
Fixpoint commaSplit (s : string) : list string :=
  match s with
  | EmptyString => [EmptyString]
  | String c rest =>
      let keep :=
        match commaSplit rest with
        | piece :: pieces => String c piece :: pieces
        | [] => [String c EmptyString]
        end in
      match rest with
      | String c' rest' =>
          if (Ascii.eqb c ","%char && Ascii.eqb c' " "%char)%bool
          then EmptyString :: commaSplit rest'
          else keep
      | EmptyString => keep
      end
  end.

(** [arr.join(", ")] *)
Definition commaJoin (l : list string) : string := String.concat ", " l.

(** Whether [", "] occurs in [s]. *)
Fixpoint hasCommaSpace (s : string) : bool :=
  match s with
  | EmptyString => false
  | String c rest =>
      match rest with
      | String c' _ =>
          (Ascii.eqb c ","%char && Ascii.eqb c' " "%char) || hasCommaSpace rest
      | EmptyString => false
      end
  end.

(** ** Comments *)
Module Comments.
Record Comment : Type := { id : Z; body : string }.

(** [Omit<Comment, "id">] *)
Record Draft : Type := { draft_body : string }.

Record State : Type := { newComment : Draft; editComment : option Comment }.

Record Listing : Type := { comments : list Comment }.

Definition fetchComments (res : Settled Listing) : Settled (list Comment) :=
  match res with
  | Resolved data => Resolved (comments data)
  | Rejected e => Rejected e
  end.

Definition createComment (newComment : Draft) (res : Settled Comment)
  : list ConsoleLine * Settled Comment :=
  match res with
  | Resolved data => ([], Resolved data)
  | Rejected e => ([], Rejected e)
  end.

Definition updateComment (updatedComment : Comment) (res : Settled Comment)
  : list ConsoleLine * Settled Comment :=
  match res with
  | Resolved data =>
      ([], Resolved {| id := id updatedComment; body := body data |})
  | Rejected e => ([], Rejected e)
  end.

Definition deleteComment (_ : Z) (res : Settled unit)
  : list ConsoleLine * Settled unit :=
  match res with
  | Resolved _ => ([], Resolved tt)
  | Rejected e => ([], Rejected e)
  end.

Definition createMutation : @MutationOptions Comment State Draft Comment Comment :=
  {| mutationFn := createComment;
     onSuccess := fun data _ p =>
       let p := setQueryData
                  (fun oldComments =>
                     let oldComments :=
                       match oldComments with Some l => l | None => [] end in
                     Some (data :: oldComments)) p in
       setState {| newComment := {| draft_body := "" |};
                   editComment := editComment (local p) |} p;
     onError := Some (fun error _ p =>
       writeConsole [console_error "Failed to add comment:" error] p) |}.

Definition updateMutation : @MutationOptions Comment State Comment Comment Comment :=
  {| mutationFn := updateComment;
     onSuccess := fun updatedComment _ p =>
       let p := setQueryData
                  (fun oldComments =>
                     option_map
                       (map (fun comment =>
                               if id comment =? id updatedComment
                               then updatedComment else comment)%Z)
                       oldComments) p in
       setState {| newComment := newComment (local p); editComment := None |} p;
     onError := None |}.

Definition deleteMutation : @MutationOptions Comment State Z unit unit :=
  {| mutationFn := deleteComment;
     onSuccess := fun _ deletedId p =>
       setQueryData
         (fun oldComments =>
            option_map
              (filter (fun comment => negb (id comment =? deletedId)%Z))
              oldComments) p;
     onError := None |}.
(** [handleAddComment], the submit handler of the form, up to the end of the
    mutation it starts.  [trim] is [String.prototype.trim]; a string is
    truthy when it is not empty. *)
Definition handleAddComment (trim : string -> string) (reply : Settled Comment)
           (p : Page Comment State) : Page Comment State :=
  match trim (draft_body (newComment (local p))) with
  | EmptyString => p
  | String _ _ => mutate createMutation (newComment (local p)) reply p
  end.
End Comments.

(** ** Todos *)
Module Todos.
Record Todo : Type := { id : Z; todo : string; completed : bool; userId : Z }.

(** [Omit<Todo, "id">] *)
Record Draft : Type :=
  { draft_todo : string; draft_completed : bool; draft_userId : Z }.

Record State : Type := { newTodo : Draft; editTodo : option Todo }.

Record Listing : Type := { todos : list Todo }.

Definition fetchTodos (res : Settled Listing) : Settled (list Todo) :=
  match res with
  | Resolved data => Resolved (todos data)
  | Rejected e => Rejected e
  end.

Definition createTodo (newTodo : Draft) (res : Settled Todo)
  : list ConsoleLine * Settled Todo :=
  match res with
  | Resolved data => ([], Resolved data)
  | Rejected e => ([], Rejected e)
  end.

Definition updateTodo (variables : Todo) (res : Settled Todo)
  : list ConsoleLine * Settled Todo :=
  match res with
  | Resolved data =>
      ([], Resolved {| id := id variables; todo := todo data;
                       completed := completed data; userId := userId data |})
  | Rejected e => ([], Rejected e)
  end.

Definition deleteTodo (_ : Z) (res : Settled unit)
  : list ConsoleLine * Settled unit :=
  match res with
  | Resolved _ => ([], Resolved tt)
  | Rejected e => ([], Rejected e)
  end.

Definition createMutation : @MutationOptions Todo State Draft Todo Todo :=
  {| mutationFn := createTodo;
     onSuccess := fun data _ p =>
       let p := setQueryData
                  (fun oldTodos =>
                     let oldTodos :=
                       match oldTodos with Some l => l | None => [] end in
                     Some (data :: oldTodos)) p in
       setState {| newTodo := {| draft_todo := ""; draft_completed := false;
                                 draft_userId := 1 |};
                   editTodo := editTodo (local p) |} p;
     onError := Some (fun error _ p =>
       writeConsole [console_error "Failed to add todo:" error] p) |}.

(** [oldTodos?.map(...) || []]: an array, empty or not, is truthy, so the
    right operand is taken exactly when [oldTodos] is [undefined]. *)
Definition updateMutation : @MutationOptions Todo State Todo Todo Todo :=
  {| mutationFn := updateTodo;
     onSuccess := fun updatedTodo _ p =>
       let p := setQueryData
                  (fun oldTodos =>
                     match option_map
                             (map (fun todo =>
                                     if id todo =? id updatedTodo
                                     then updatedTodo else todo)%Z)
                             oldTodos with
                     | Some l => Some l
                     | None => Some []
                     end) p in
       setState {| newTodo := newTodo (local p); editTodo := None |} p;
     onError := Some (fun error _ p =>
       writeConsole [console_error "Failed to update todo:" error] p) |}.

Definition deleteMutation : @MutationOptions Todo State Z unit unit :=
  {| mutationFn := deleteTodo;
     onSuccess := fun _ deletedId p =>
       setQueryData
         (fun oldTodos =>
            option_map
              (filter (fun todo => negb (id todo =? deletedId)%Z))
              oldTodos) p;
     onError := None |}.

(** [handleAddTodo]; [trim] is [String.prototype.trim]. *)
Definition handleAddTodo (trim : string -> string) (reply : Settled Todo)
           (p : Page Todo State) : Page Todo State :=
  match trim (draft_todo (newTodo (local p))) with
  | EmptyString => p
  | String _ _ => mutate createMutation (newTodo (local p)) reply p
  end.
End Todos.

(** ** Posts *)
Module Posts.
Record Post : Type :=
  { id : Z; title : string; body : string; tags : list string;
    views : Z; userId : Z }.

(** [Omit<Post, "id" | "views">] *)
Record Draft : Type :=
  { draft_title : string; draft_body : string; draft_tags : list string;
    draft_userId : Z }.

Record State : Type := { newPost : Draft; editPost : option Post }.

Record Listing : Type := { posts : list Post }.

Definition fetchPosts (res : Settled Listing) : Settled (list Post) :=
  match res with
  | Resolved data => Resolved (posts data)
  | Rejected e => Rejected e
  end.

Definition createPost (newPost : Draft) (res : Settled Post)
  : list ConsoleLine * Settled Post :=
  match res with
  | Resolved data => ([], Resolved data)
  | Rejected e => ([], Rejected e)
  end.

(** The page calls it with [editPost], a whole [Post]; the fields beside
    [id] travel in the request body and the reply's body is returned as is. *)
Definition updatePost (variables : Post) (res : Settled Post)
  : list ConsoleLine * Settled Post :=
  match res with
  | Resolved data => ([], Resolved data)
  | Rejected e => ([], Rejected e)
  end.

Definition deletePost (id : Z) (res : Settled unit)
  : list ConsoleLine * Settled unit :=
  let printed := [console_log_id "Deleting post with ID: " id] in
  match res with
  | Resolved _ => (printed, Resolved tt)
  | Rejected e => (printed, Rejected e)
  end.

Definition createMutation : @MutationOptions Post State Draft Post Post :=
  {| mutationFn := createPost;
     onSuccess := fun newPost _ p =>
       setQueryData
         (fun oldPosts =>
            Some (match oldPosts with Some l => l | None => [] end
                  ++ [newPost])) p;
     onError := None |}.

Definition updateMutation : @MutationOptions Post State Post Post Post :=
  {| mutationFn := updatePost;
     onSuccess := fun updatedPost _ p =>
       let p := setQueryData
                  (fun oldPosts =>
                     option_map
                       (map (fun post =>
                               if id post =? id updatedPost
                               then updatedPost else post)%Z)
                       oldPosts) p in
       setState {| newPost := newPost (local p); editPost := None |} p;
     onError := None |}.

Definition deleteMutation : @MutationOptions Post State Z unit unit :=
  {| mutationFn := deletePost;
     onSuccess := fun _ deletedId p =>
       setQueryData
         (fun oldPosts =>
            option_map
              (filter (fun post => negb (id post =? deletedId)%Z))
              oldPosts) p;
     onError := None |}.
Definition blankDraft : Draft :=
  {| draft_title := ""; draft_body := ""; draft_tags := []; draft_userId := 1 |}.

(** The submit handler of the create form: it starts the mutation with the
    draft and clears the form at once; the promise settles after the
    handler has returned. *)
Definition submitNewPost (reply : Settled Post)
           (p : Page Post State) : Page Post State :=
  let draft := newPost (local p) in
  let p := setState {| newPost := blankDraft; editPost := editPost (local p) |} p in
  mutate createMutation draft reply p.

(** The tags input of the create form: what it shows and its [onChange]. *)
Definition tagsValue (s : State) : string := commaJoin (draft_tags (newPost s)).

Definition changeTags (typed : string) (p : Page Post State) : Page Post State :=
  let d := newPost (local p) in
  setState {| newPost := {| draft_title := draft_title d; draft_body := draft_body d;
                            draft_tags := commaSplit typed;
                            draft_userId := draft_userId d |};
              editPost := editPost (local p) |} p.

(** The tags input of the edit modal, shown while [editPost] is not null. *)
Definition editTagsValue (s : State) : option string :=
  option_map (fun e => commaJoin (tags e)) (editPost s).

Definition changeEditTags (typed : string) (p : Page Post State) : Page Post State :=
  match editPost (local p) with
  | Some e =>
      setState {| newPost := newPost (local p);
                  editPost := Some {| id := id e; title := title e; body := body e;
                                      tags := commaSplit typed; views := views e;
                                      userId := userId e |} |} p
  | None => p
  end.
End Posts.

(** ** Recipes *)
Module Recipes.
Record Recipe : Type :=
  { id : Z; name : string; ingredients : list string; instructions : string }.

(** [Omit<Recipe, "id">] *)
Record Draft : Type :=
  { draft_name : string; draft_ingredients : list string;
    draft_instructions : string }.

(** [recipeForm] is always set to an object that has an [id]. *)
Record State : Type := { recipeForm : Recipe; editing : bool }.

Record Listing : Type := { recipes : list Recipe }.

Definition emptyForm : Recipe :=
  {| id := 0; name := ""; ingredients := []; instructions := "" |}.

Definition fetchRecipes (res : Settled Listing) : Settled (list Recipe) :=
  match res with
  | Resolved data => Resolved (recipes data)
  | Rejected e => Rejected e
  end.

Definition createRecipe (newRecipe : Draft) (res : Settled Recipe)
  : list ConsoleLine * Settled Recipe :=
  match res with
  | Resolved data => ([], Resolved data)
  | Rejected e => ([], Rejected e)
  end.

Definition updateRecipe (recipe : Recipe) (res : Settled Recipe)
  : list ConsoleLine * Settled Recipe :=
  match res with
  | Resolved data => ([], Resolved data)
  | Rejected e => ([], Rejected e)
  end.

Definition deleteRecipe (id : Z) (res : Settled unit)
  : list ConsoleLine * Settled unit :=
  let printed := [console_log_id "Deleting recipe with ID: " id] in
  match res with
  | Resolved _ => (printed, Resolved tt)
  | Rejected e => (printed, Rejected e)
  end.

Definition createMutation : @MutationOptions Recipe State Draft Recipe Recipe :=
  {| mutationFn := createRecipe;
     onSuccess := fun data _ p =>
       let p := setQueryData
                  (fun old =>
                     match old with
                     | Some old => Some (old ++ [data])
                     | None => Some [data]
                     end) p in
       writeConsole [console_log "Recipe added successfully!"] p;
     onError := None |}.

Definition updateMutation : @MutationOptions Recipe State Recipe Recipe Recipe :=
  {| mutationFn := updateRecipe;
     onSuccess := fun updatedRecipe _ p =>
       let p := setQueryData
                  (fun old =>
                     match old with
                     | Some old =>
                         Some (map (fun r =>
                                      if id r =? id updatedRecipe
                                      then updatedRecipe else r)%Z old)
                     | None => Some []
                     end) p in
       let p := setState {| recipeForm := recipeForm (local p);
                            editing := false |} p in
       let p := setState {| recipeForm := emptyForm;
                            editing := editing (local p) |} p in
       writeConsole [console_log "Recipe updated successfully!"] p;
     onError := None |}.

Definition deleteMutation : @MutationOptions Recipe State Z unit unit :=
  {| mutationFn := deleteRecipe;
     onSuccess := fun _ id' p =>
       let p := setQueryData
                  (fun old =>
                     match old with
                     | Some old =>
                         Some (filter (fun r => negb (id r =? id')%Z) old)
                     | None => Some []
                     end) p in
       writeConsole [console_log "Recipe deleted successfully!"] p;
     onError := None |}.
(** The ingredients input: what it shows and its [onChange]. *)
Definition ingredientsValue (s : State) : string :=
  commaJoin (ingredients (recipeForm s)).

Definition changeIngredients (typed : string)
           (p : Page Recipe State) : Page Recipe State :=
  let f := recipeForm (local p) in
  setState {| recipeForm := {| id := id f; name := name f;
                               ingredients := commaSplit typed;
                               instructions := instructions f |};
              editing := editing (local p) |} p.

(** [handleSubmit]: with [recipeForm] a whole [Recipe], ["id" in recipeForm]
    holds and [editing] alone picks the branch.  The form is cleared before
    the handler returns, the promise settles afterwards. *)
Definition handleSubmit (reply : Settled Recipe)
           (p : Page Recipe State) : Page Recipe State :=
  let form := recipeForm (local p) in
  let cleared := setState {| recipeForm := emptyForm; editing := false |} p in
  if editing (local p)
  then mutate updateMutation form reply cleared
  else mutate createMutation
              {| draft_name := name form; draft_ingredients := ingredients form;
                 draft_instructions := instructions form |}
              reply cleared.
End Recipes.

(** ** The form of the recipes page, with its declared type

    [recipeForm] is declared [Omit<Recipe, "id"> | Recipe]: an object that
    may lack [id].  Here the field is optional and the handlers that write
    the form are the events of a small machine. *)
Module RecipeForm.
Record Form : Type :=
  { id : option Z; name : string; ingredients : list string;
    instructions : string }.

Record State : Type := { recipeForm : Form; editing : bool }.

Definition ofRecipe (r : Recipes.Recipe) : Form :=
  {| id := Some (Recipes.id r); name := Recipes.name r;
     ingredients := Recipes.ingredients r;
     instructions := Recipes.instructions r |}.

(** The object literal [{ id: 0, name: "", ingredients: [], instructions: "" }]. *)
Definition blank : Form := ofRecipe Recipes.emptyForm.

Definition initial : State := {| recipeForm := blank; editing := false |}.

Inductive Event : Type :=
| ChangeName (typed : string)
| ChangeIngredients (typed : string)
| ChangeInstructions (typed : string)
| ClickEdit (recipe : Recipes.Recipe)
| ClickCancel
| Submit
| UpdateSucceeded.

(** Each handler that calls [setRecipeForm] or [setEditing]; a spread
    [{ ...recipeForm, field: v }] keeps the other fields, [id] included. *)
Definition step (s : State) (e : Event) : State :=
  let f := recipeForm s in
  match e with
  | ChangeName typed =>
      {| recipeForm := {| id := id f; name := typed;
                          ingredients := ingredients f;
                          instructions := instructions f |};
         editing := editing s |}
  | ChangeIngredients typed =>
      {| recipeForm := {| id := id f; name := name f;
                          ingredients := commaSplit typed;
                          instructions := instructions f |};
         editing := editing s |}
  | ChangeInstructions typed =>
      {| recipeForm := {| id := id f; name := name f;
                          ingredients := ingredients f;
                          instructions := typed |};
         editing := editing s |}
  | ClickEdit recipe => {| recipeForm := ofRecipe recipe; editing := true |}
  | ClickCancel => {| recipeForm := blank; editing := false |}
  | Submit => {| recipeForm := blank; editing := false |}
  | UpdateSucceeded => {| recipeForm := blank; editing := false |}
  end.

Definition run (events : list Event) : State := fold_left step events initial.

(** The events that only type into one of the three inputs. *)
Definition isTyping (e : Event) : bool :=
  match e with
  | ChangeName _ | ChangeIngredients _ | ChangeInstructions _ => true
  | ClickEdit _ | ClickCancel | Submit | UpdateSucceeded => false
  end.

(** The test of [handleSubmit]: [editing && "id" in recipeForm]. *)
Definition takesUpdateBranch (s : State) : bool :=
  editing s && match id (recipeForm s) with Some _ => true | None => false end.
End RecipeForm.

(** ** The four pages under one interface *)

Record ResourcePage : Type := mkResourcePage {
  Rec : Type;                       (* the Record type of the page *)
  rid : Rec -> Z;                   (* its key field [id] *)
  Local : Type;
  Draft : Type;                     (* variables of the create mutation *)
  Listing : Type;                   (* body of the reply to the GET *)
  fetchAll : Settled Listing -> Settled (list Rec);
  createMutation : @MutationOptions Rec Local Draft Rec Rec;
  updateMutation : @MutationOptions Rec Local Rec Rec Rec;
  deleteMutation : @MutationOptions Rec Local Z unit unit
}.

Inductive Resource : Type := comments | todos | posts | recipes.

Definition page (r : Resource) : ResourcePage :=
  match r with
  | comments =>
      mkResourcePage Comments.id Comments.fetchComments Comments.createMutation
                     Comments.updateMutation Comments.deleteMutation
  | todos =>
      mkResourcePage Todos.id Todos.fetchTodos Todos.createMutation
                     Todos.updateMutation Todos.deleteMutation
  | posts =>
      mkResourcePage Posts.id Posts.fetchPosts Posts.createMutation
                     Posts.updateMutation Posts.deleteMutation
  | recipes =>
      mkResourcePage Recipes.id Recipes.fetchRecipes Recipes.createMutation
                     Recipes.updateMutation Recipes.deleteMutation
  end.

Unset Implicit Arguments.

Definition PageOf (r : Resource) : Type := Page (Rec (page r)) (Local (page r)).

(** The keys held by a cache entry, in display order. *)
Definition ids (r : Resource) (c : option (list (Rec (page r)))) : list Z :=
  map (rid (page r)) (records c).

(** The invariant of a Cached Collection: at most one Record per id. *)
Definition uniqueIds (r : Resource) (c : option (list (Rec (page r)))) : Prop :=
  NoDup (ids r c).

Definition occurrences (r : Resource) (k : Z) (c : option (list (Rec (page r)))) : nat :=
  count_occ Z.eq_dec (ids r c) k.

Definition errors (lines : list ConsoleLine) : list ConsoleLine :=
  filter is_error lines.

(** The three mutations of a page, from [mutate] to the end of the handler. *)
Definition create (r : Resource) (vars : Draft (page r))
           (reply : Settled (Rec (page r))) (p : PageOf r) : PageOf r :=
  mutate (createMutation (page r)) vars reply p.

Definition update (r : Resource) (vars : Rec (page r))
           (reply : Settled (Rec (page r))) (p : PageOf r) : PageOf r :=
  mutate (updateMutation (page r)) vars reply p.

Definition delete (r : Resource) (k : Z) (reply : Settled unit)
           (p : PageOf r) : PageOf r :=
  mutate (deleteMutation (page r)) k reply p.

(** The Record an update call hands to [onSuccess]. *)
Definition updated (r : Resource) (vars reply : Rec (page r)) : option (Rec (page r)) :=
  returnedBy (updateMutation (page r)) vars (Resolved reply).

(** The Records [queryFn] resolves to when the GET is answered with
    [listing]. *)
Definition listed (r : Resource) (listing : Listing (page r)) : list (Rec (page r)) :=
  match fetchAll (page r) (Resolved listing) with
  | Resolved data => data
  | Rejected _ => []
  end.

(** A fetch that resolved. *)
Definition fetched (r : Resource) (listing : Listing (page r)) (p : PageOf r) : PageOf r :=
  queryResolved (listed r listing) p.

(** ** The two list patches

    [arr.map(x => x.id === u.id ? u : x)] and [arr.filter(x => x.id !== k)],
    the shape of every update and delete handler. *)
Section Patches.
Context {T : Type}.
Variable key : T -> Z.

Definition replaceBy (u : T) (l : list T) : list T :=
  map (fun x => if (key x =? key u)%Z then u else x) l.

Definition removeKey (k : Z) (l : list T) : list T :=
  filter (fun x => negb (key x =? k)%Z) l.

End Patches.

(** ** The properties of the synchroniser, as predicates on pages *)

(** [after] is [before] with every Record under key [k] replaced by
    [returned], the other Records kept, all at their positions. *)
Definition patchedAt (r : Resource) (k : Z) (returned : Rec (page r))
           (before after : option (list (Rec (page r)))) : Prop :=
  length (records after) = length (records before) /\
  forall (i : nat) (x : Rec (page r)),
    nth_error (records before) i = Some x ->
    nth_error (records after) i =
    Some (if (rid (page r) x =? k)%Z then returned else x).

(** A successful update of a key the cache holds puts the returned Record
    at that key and keeps the rest. *)
Definition update_replaces (r : Resource) (vars reply returned : Rec (page r))
           (p : PageOf r) : Prop :=
  updated r vars reply = Some returned ->
  In (rid (page r) vars) (ids r (cache p)) ->
  patchedAt r (rid (page r) vars) returned
            (cache p) (cache (update r vars (Resolved reply) p)).

(** The result was dropped without a trace: same Records, no error printed. *)
Definition ignored (r : Resource) (p p' : PageOf r) : Prop :=
  records (cache p') = records (cache p) /\
  errors (console p') = errors (console p).

(** A successful update of a key the cache does not hold is ignored. *)
Definition update_of_absent_ignored (r : Resource) (vars reply : Rec (page r))
           (p : PageOf r) : Prop :=
  ~ In (rid (page r) vars) (ids r (cache p)) ->
  ignored r p (update r vars (Resolved reply) p).

(** A successful delete leaves no Record under the key, takes one Record
    away if the key was there and none otherwise; without the key the
    Records stay, and a populated cache is left exactly as it was. *)
Definition delete_removes (r : Resource) (k : Z) (p : PageOf r) : Prop :=
  let p' := delete r k (Resolved tt) p in
  Forall (fun x => rid (page r) x <> k) (records (cache p')) /\
  size (cache p) =
  size (cache p') + (if existsb (Z.eqb k) (ids r (cache p)) then 1 else 0) /\
  (~ In k (ids r (cache p)) ->
   records (cache p') = records (cache p) /\
   forall l, cache p = Some l -> cache p' = Some l).

(** Each kind of successful operation keeps the ids of [p] distinct. *)
Definition fetch_keeps_unique (r : Resource) (p : PageOf r) : Prop :=
  forall listing, uniqueIds r (cache (fetched r listing p)).

Definition create_keeps_unique (r : Resource) (p : PageOf r) : Prop :=
  forall vars reply, uniqueIds r (cache (create r vars (Resolved reply) p)).

Definition update_keeps_unique (r : Resource) (p : PageOf r) : Prop :=
  forall vars reply, uniqueIds r (cache (update r vars (Resolved reply) p)).

Definition delete_keeps_unique (r : Resource) (p : PageOf r) : Prop :=
  forall k, uniqueIds r (cache (delete r k (Resolved tt) p)).

(** A line other than the [console.log] of a message, which on these pages
    only success handlers print. *)
Definition notSuccessMessage (line : ConsoleLine) : Prop :=
  match line with
  | console_log _ => False
  | console_log_id _ _ | console_error _ _ => True
  end.

(** Nothing but the console differs between [p] and [p'], and no success
    message was printed. *)
Definition untouched (r : Resource) (p p' : PageOf r) : Prop :=
  cache p' = cache p /\ local p' = local p /\
  exists lines, console p' = console p ++ lines /\ Forall notSuccessMessage lines.

(** Successful creates one after the other, answered with [replies] in
    that order. *)
Definition createAll (r : Resource) (vars : Draft (page r))
           (replies : list (Rec (page r))) (p : PageOf r) : PageOf r :=
  fold_left (fun p reply => create r vars (Resolved reply) p) replies p.



(** ** Sample pages *)

Definition commentsPage (c : option (list Comments.Comment)) : PageOf comments :=
  mkPage c {| Comments.newComment := {| Comments.draft_body := "" |};
              Comments.editComment := None |} [].

Definition todosPage (c : option (list Todos.Todo)) : PageOf todos :=
  mkPage c {| Todos.newTodo := {| Todos.draft_todo := "";
                                  Todos.draft_completed := false;
                                  Todos.draft_userId := 1 |};
              Todos.editTodo := None |} [].

Definition postsPage (c : option (list Posts.Post)) : PageOf posts :=
  mkPage c {| Posts.newPost := {| Posts.draft_title := ""; Posts.draft_body := "";
                                  Posts.draft_tags := []; Posts.draft_userId := 1 |};
              Posts.editPost := None |} [].

Definition recipesPage (c : option (list Recipes.Recipe)) : PageOf recipes :=
  mkPage c {| Recipes.recipeForm := Recipes.emptyForm; Recipes.editing := false |} [].

Definition comment (k : Z) (text : string) : Comments.Comment :=
  {| Comments.id := k; Comments.body := text |}.

Definition todoItem (k : Z) (text : string) (done : bool) : Todos.Todo :=
  {| Todos.id := k; Todos.todo := text; Todos.completed := done; Todos.userId := 1 |}.

Definition post (k : Z) (heading : string) : Posts.Post :=
  {| Posts.id := k; Posts.title := heading; Posts.body := ""; Posts.tags := [];
     Posts.views := 0; Posts.userId := 1 |}.

Definition commentDraft (text : string) : Comments.Draft :=
  {| Comments.draft_body := text |}.

(** Two comments added in a row to an empty list, the server answering both
    times with the same new id. *)
Definition twiceAdded : PageOf comments :=
  create comments (commentDraft "b") (Resolved (comment 1 "b"))
    (create comments (commentDraft "a") (Resolved (comment 1 "a"))
       (commentsPage (Some []))).

(** ** Lemmas on the two list patches *)
Section PatchLemmas.
Context {T : Type}.
Variable key : T -> Z.

Lemma replaceBy_length u l : length (replaceBy key u l) = length l.
Proof. apply length_map. Qed.

Lemma replaceBy_nth u l i :
  nth_error (replaceBy key u l) i =
  option_map (fun x => if (key x =? key u)%Z then u else x) (nth_error l i).
Proof. apply nth_error_map. Qed.

Lemma replaceBy_keys u l : map key (replaceBy key u l) = map key l.
Proof.
  unfold replaceBy. induction l as [|x l IH]; cbn; [reflexivity|].
  rewrite IH. destruct (Z.eqb_spec (key x) (key u)) as [E|E]; congruence.
Qed.

Lemma replaceBy_absent u l : ~ In (key u) (map key l) -> replaceBy key u l = l.
Proof.
  unfold replaceBy. induction l as [|x l IH]; cbn; intros H; [reflexivity|].
  destruct (Z.eqb_spec (key x) (key u)) as [E|E].
  - exfalso. apply H. now left.
  - f_equal. apply IH. intros Hin. apply H. now right.
Qed.

Lemma removeKey_Forall k l : Forall (fun x => key x <> k) (removeKey key k l).
Proof.
  apply Forall_forall. intros x Hx. apply filter_In in Hx as [_ Hx].
  destruct (Z.eqb_spec (key x) k); [discriminate | assumption].
Qed.

Lemma removeKey_length k l :
  length l = length (removeKey key k l) + count_occ Z.eq_dec (map key l) k.
Proof.
  unfold removeKey. induction l as [|x l IH]; simpl; [reflexivity|].
  destruct (Z.eqb_spec (key x) k) as [E|E]; destruct (Z.eq_dec (key x) k);
    try contradiction; simpl; lia.
Qed.

Lemma removeKey_absent k l : ~ In k (map key l) -> removeKey key k l = l.
Proof.
  unfold removeKey. induction l as [|x l IH]; simpl; intros H; [reflexivity|].
  destruct (Z.eqb_spec (key x) k) as [E|E]; simpl.
  - exfalso. apply H. now left.
  - f_equal. apply IH. intros Hin. apply H. now right.
Qed.

Lemma removeKey_twice k l : removeKey key k (removeKey key k l) = removeKey key k l.
Proof.
  unfold removeKey. induction l as [|x l IH]; simpl; [reflexivity|].
  destruct (Z.eqb_spec (key x) k) as [E|E]; simpl; [exact IH|].
  destruct (Z.eqb_spec (key x) k); [contradiction|]. simpl. now rewrite IH.
Qed.

Lemma removeKey_NoDup k l : NoDup (map key l) -> NoDup (map key (removeKey key k l)).
Proof.
  unfold removeKey. induction l as [|x l IH]; simpl; intros H; [constructor|].
  inversion H as [|? ? Hx Hl]; subst.
  destruct (Z.eqb_spec (key x) k) as [E|E]; simpl; [now apply IH|].
  constructor; [|now apply IH].
  intros Hin. apply Hx. apply in_map_iff in Hin as [y [Hy Hin]].
  apply filter_In in Hin as [Hin _]. apply in_map_iff. now exists y.
Qed.

Lemma existsb_key_In k (l : list Z) : existsb (Z.eqb k) l = true <-> In k l.
Proof.
  rewrite existsb_exists. split.
  - intros [x [Hx E]]. apply Z.eqb_eq in E. now subst.
  - intros H. exists k. split; [assumption | apply Z.eqb_refl].
Qed.
End PatchLemmas.


(** ** What each settled mutation leaves in the cache *)

Lemma create_cache (r : Resource) vars reply (p : PageOf r) :
  cache (create r vars (Resolved reply) p) =
  Some (match r with
        | comments | todos => reply :: records (cache p)
        | posts | recipes => records (cache p) ++ [reply]
        end).
Proof. destruct r, p as [[l|] s c]; reflexivity. Qed.

Lemma update_cache (r : Resource) vars reply (p : PageOf r) :
  exists returned,
    updated r vars reply = Some returned /\
    cache (update r vars (Resolved reply) p) =
    match cache p with
    | Some l => Some (replaceBy (rid (page r)) returned l)
    | None => match r with
              | todos | recipes => Some []
              | comments | posts => None
              end
    end.
Proof. destruct r, p as [[l|] s c]; eexists; split; reflexivity. Qed.

Lemma delete_cache (r : Resource) k (p : PageOf r) :
  cache (delete r k (Resolved tt) p) =
  match cache p with
  | Some l => Some (removeKey (rid (page r)) k l)
  | None => match r with
            | recipes => Some []
            | comments | todos | posts => None
            end
  end.
Proof. destruct r, p as [[l|] s c]; reflexivity. Qed.

(** Comments and todos rebuild the Record around the id of the call; posts
    and recipes hand on the body of the reply. *)
Lemma updated_id (r : Resource) vars reply returned :
  updated r vars reply = Some returned ->
  rid (page r) returned =
  match r with
  | comments | todos => rid (page r) vars
  | posts | recipes => rid (page r) reply
  end.
Proof. destruct r; cbn; intros H; injection H as <-; reflexivity. Qed.

Lemma update_records (r : Resource) vars reply returned (p : PageOf r) :
  updated r vars reply = Some returned ->
  records (cache (update r vars (Resolved reply) p)) =
  replaceBy (rid (page r)) returned (records (cache p)).
Proof.
  intros Hu. destruct (update_cache r vars reply p) as [u [Hu' Hc]].
  rewrite Hu in Hu'. injection Hu' as <-. rewrite Hc.
  destruct (cache p); [reflexivity | destruct r; reflexivity].
Qed.

Lemma delete_records (r : Resource) k (p : PageOf r) :
  records (cache (delete r k (Resolved tt) p)) =
  removeKey (rid (page r)) k (records (cache p)).
Proof.
  rewrite delete_cache. destruct (cache p); [reflexivity | destruct r; reflexivity].
Qed.

Lemma update_console_errors (r : Resource) vars reply (p : PageOf r) :
  errors (console (update r vars (Resolved reply) p)) = errors (console p).
Proof.
  destruct r, p as [[l|] s c]; cbn; unfold errors;
    rewrite ?filter_app, ?app_nil_r; reflexivity.
Qed.

Lemma fetchAll_resolves (r : Resource) (listing : Listing (page r)) :
  fetchAll (page r) (Resolved listing) = Resolved (listed r listing).
Proof. destruct r; reflexivity. Qed.

Lemma NoDup_occurs_once (k : Z) (l : list Z) :
  NoDup l -> count_occ Z.eq_dec l k <= 1.
Proof. intros H. now apply (proj1 (NoDup_count_occ Z.eq_dec l)). Qed.

Lemma NoDup_snoc (k : Z) (l : list Z) :
  NoDup (l ++ [k]) <-> ~ In k l /\ NoDup l.
Proof.
  rewrite <- NoDup_cons_iff. split; apply Permutation_NoDup.
  - apply Permutation_sym, Permutation_cons_append.
  - apply Permutation_cons_append.
Qed.

(** ** The scenarios of the specification, run on the handlers *)

Example update_scenario :
  cache (update todos (todoItem 1 "a" true) (Resolved (todoItem 1 "a" true))
                (todosPage (Some [todoItem 1 "a" false])))
  = Some [todoItem 1 "a" true].
Proof. reflexivity. Qed.

Example delete_scenario :
  cache (delete comments 2 (Resolved tt)
                (commentsPage (Some [comment 1 "a"; comment 2 "b"])))
  = Some [comment 1 "a"].
Proof. reflexivity. Qed.

Example twiceAdded_cache :
  cache twiceAdded = Some [comment 1 "b"; comment 1 "a"].
Proof. reflexivity. Qed.

Example create_on_absent_cache :
  cache (create recipes
                {| Recipes.draft_name := "x"; Recipes.draft_ingredients := [];
                   Recipes.draft_instructions := "" |}
                (Resolved Recipes.emptyForm) (recipesPage None))
  = Some [Recipes.emptyForm].
Proof. reflexivity. Qed.

Example update_on_absent_cache :
  cache (update todos (todoItem 1 "a" true) (Resolved (todoItem 1 "a" true))
                (todosPage None)) = Some [] /\
  cache (update comments (comment 1 "a") (Resolved (comment 1 "a"))
                (commentsPage None)) = None.
Proof. split; reflexivity. Qed.

(** ** Create *)

(** C1: after a successful create the cache holds exactly one more Record
    than before, the Records that were there are kept in order, and the one
    inserted is the Record the server returned, id included: the create
    operation resolves to the body of the reply unchanged. *)
Theorem create_adds_the_returned_record (r : Resource) (vars : Draft (page r))
        (reply : Rec (page r)) (p : PageOf r) :
  let p' := create r vars (Resolved reply) p in
  returnedBy (createMutation (page r)) vars (Resolved reply) = Some reply /\
  size (cache p') = S (size (cache p)) /\
  exists front back,
    records (cache p) = front ++ back /\
    records (cache p') = front ++ reply :: back.
Proof.
  cbv zeta. split; [destruct r; reflexivity|].
  rewrite create_cache. unfold size. destruct r; simpl records.
  - split; [reflexivity|]. exists [], (records (cache p)). now split.
  - split; [reflexivity|]. exists [], (records (cache p)). now split.
  - split; [rewrite length_app; simpl; lia|].
    exists (records (cache p)), []. now rewrite app_nil_r.
  - split; [rewrite length_app; simpl; lia|].
    exists (records (cache p)), []. now rewrite app_nil_r.
Qed.

(** C8: the place of the new Record is fixed per resource: comments and
    todos put it in front of the cached sequence, posts and recipes at its
    end. *)
Theorem create_position_per_resource (r : Resource) (vars : Draft (page r))
        (reply : Rec (page r)) (p : PageOf r) :
  records (cache (create r vars (Resolved reply) p)) =
  match r with
  | comments | todos => reply :: records (cache p)
  | posts | recipes => records (cache p) ++ [reply]
  end.
Proof. rewrite create_cache. reflexivity. Qed.

(** ** Update *)

(** C2, as written, fails on the posts page: the call is for post 1, the
    server answers with a Record whose id is 2, and the handler, which
    looks for the id of the returned Record, leaves post 1 as it was. *)
Lemma update_replaces_fails_on_foreign_id :
  ~ update_replaces posts (post 1 "b") (post 2 "b") (post 2 "b")
      (postsPage (Some [post 1 "a"])).
Proof.
  intros H.
  destruct (H eq_refl (or_introl eq_refl)) as [_ Hnth].
  specialize (Hnth 0%nat (post 1 "a") eq_refl).
  discriminate Hnth.
Qed.

(** C2 (amended): when the Record returned by a successful update carries
    the id of the call and the cache holds a Record with that id, every
    cache entry under that id afterwards is the returned Record, and all
    other Records are the same, at the same positions. *)
Theorem update_replaces_entry_of_returned_id (r : Resource)
        (vars reply returned : Rec (page r)) (p : PageOf r) :
  rid (page r) returned = rid (page r) vars ->
  updated r vars reply = Some returned ->
  In (rid (page r) vars) (ids r (cache p)) ->
  patchedAt r (rid (page r) vars) returned
            (cache p) (cache (update r vars (Resolved reply) p)).
Proof.
  intros Hid Hu _. unfold patchedAt.
  rewrite (update_records r vars reply returned p Hu). split.
  - apply replaceBy_length.
  - intros i x Hx. rewrite replaceBy_nth, Hx, Hid. reflexivity.
Qed.

Lemma update_replaces_entry_of_returned_id_witness :
  patchedAt todos 1 (todoItem 1 "a" true)
            (Some [todoItem 1 "a" false])
            (cache (update todos (todoItem 1 "a" true)
                           (Resolved (todoItem 1 "a" true))
                           (todosPage (Some [todoItem 1 "a" false])))).
Proof.
  apply (update_replaces_entry_of_returned_id todos
           (todoItem 1 "a" true) (todoItem 1 "a" true) (todoItem 1 "a" true)
           (todosPage (Some [todoItem 1 "a" false]))).
  - reflexivity.
  - reflexivity.
  - simpl. left. reflexivity.
Defined.

(** C7, as written, fails on the posts page: no post 1 is cached, the call
    is for post 1, the server answers with a Record whose id is 2, and the
    cached post 2 is overwritten. *)
Lemma update_of_absent_not_ignored_on_foreign_id :
  ~ update_of_absent_ignored posts (post 1 "b") (post 2 "b")
      (postsPage (Some [post 2 "a"])).
Proof.
  intros H.
  assert (Hno : ~ In (rid (page posts) (post 1 "b"))
                     (ids posts (cache (postsPage (Some [post 2 "a"]))))).
  { simpl. intros [E | []]. discriminate E. }
  destruct (H Hno) as [Hrec _]. discriminate Hrec.
Qed.

(** C7 (amended): when the Record returned by a successful update carries
    the id of the call and the cache holds no Record with that id, the
    result is dropped: the cached Records are the same, a populated cache is
    left exactly as it was, and nothing is printed as an error. *)
Theorem update_of_absent_id_is_ignored (r : Resource)
        (vars reply returned : Rec (page r)) (p : PageOf r) :
  rid (page r) returned = rid (page r) vars ->
  updated r vars reply = Some returned ->
  ~ In (rid (page r) vars) (ids r (cache p)) ->
  let p' := update r vars (Resolved reply) p in
  ignored r p p' /\
  (forall l, cache p = Some l -> cache p' = Some l).
Proof.
  intros Hid Hu Hno. cbv zeta. rewrite <- Hid in Hno. split; [split|].
  - rewrite (update_records r vars reply returned p Hu).
    now apply replaceBy_absent.
  - apply update_console_errors.
  - intros l Hl. destruct (update_cache r vars reply p) as [u [Hu' Hc]].
    rewrite Hu in Hu'. injection Hu' as <-. rewrite Hc, Hl. f_equal.
    apply replaceBy_absent. unfold ids in Hno. now rewrite Hl in Hno.
Qed.

Lemma update_of_absent_id_is_ignored_witness :
  let p := commentsPage (Some [comment 1 "a"]) in
  let p' := update comments (comment 7 "x") (Resolved (comment 7 "y")) p in
  ignored comments p p' /\ (forall l, cache p = Some l -> cache p' = Some l).
Proof.
  apply (update_of_absent_id_is_ignored comments
           (comment 7 "x") (comment 7 "y") (comment 7 "y")
           (commentsPage (Some [comment 1 "a"]))).
  - reflexivity.
  - reflexivity.
  - simpl. intros [E | []]. discriminate E.
Defined.

(** C10: a successful update never changes the number of cached Records,
    whether or not the cache holds the id, in an absent cache as well. *)
Theorem update_keeps_size (r : Resource) (vars reply : Rec (page r))
        (p : PageOf r) :
  size (cache (update r vars (Resolved reply) p)) = size (cache p).
Proof.
  destruct (update_cache r vars reply p) as [u [Hu _]].
  unfold size. rewrite (update_records r vars reply u p Hu).
  apply replaceBy_length.
Qed.

(** ** Delete *)

(** C3, as written, fails once the cache holds a key twice, which two
    creates answered with the same id bring about: deleting that key takes
    both Records away. *)
Lemma delete_removes_two_of_a_repeated_id :
  ~ delete_removes comments 1 twiceAdded.
Proof.
  intros [_ [Hsize _]]. discriminate Hsize.
Qed.

Lemma delete_removes_when_single (r : Resource) (k : Z) (p : PageOf r) :
  occurrences r k (cache p) <= 1 ->
  delete_removes r k p.
Proof.
  intros Hocc. unfold delete_removes. cbv zeta.
  rewrite delete_records. repeat split.
  - apply removeKey_Forall.
  - unfold size. rewrite delete_records.
    rewrite (removeKey_length (rid (page r)) k (records (cache p))) at 1.
    f_equal. unfold occurrences, ids in *.
    destruct (existsb (Z.eqb k) (map (rid (page r)) (records (cache p)))) eqn:E.
    + apply existsb_key_In in E.
      apply (count_occ_In Z.eq_dec) in E. lia.
    + apply count_occ_not_In. intros Hin.
      apply existsb_key_In in Hin. congruence.
  - now apply removeKey_absent.
  - intros l Hl. rewrite delete_cache, Hl. f_equal.
    apply removeKey_absent. unfold ids in *. now rewrite Hl in *.
Qed.

(** The size always goes down by the number of Records under the key. *)
Lemma delete_size (r : Resource) (k : Z) (p : PageOf r) :
  size (cache p) =
  size (cache (delete r k (Resolved tt) p)) + occurrences r k (cache p).
Proof.
  unfold size, occurrences, ids. rewrite delete_records.
  apply removeKey_length.
Qed.

(** C3 (amended): after a successful delete, on every cache, no cached
    Record has the key, and the size went down by the number of Records
    that had the key; deleting a key that is not there leaves the Records
    as they were, a populated cache exactly as it was.  If the cache held
    at most one Record with the key, the size went down by exactly one
    when the key was there and by zero when it was not. *)
Theorem delete_removes_the_key (r : Resource) (k : Z) (p : PageOf r) :
  let p' := delete r k (Resolved tt) p in
  Forall (fun x => rid (page r) x <> k) (records (cache p')) /\
  size (cache p) = size (cache p') + occurrences r k (cache p) /\
  (~ In k (ids r (cache p)) ->
   records (cache p') = records (cache p) /\
   forall l, cache p = Some l -> cache p' = Some l) /\
  (occurrences r k (cache p) <= 1 -> delete_removes r k p).
Proof.
  cbv zeta. split; [|split; [|split]].
  - rewrite delete_records. apply removeKey_Forall.
  - apply delete_size.
  - intros Hno.
    assert (occurrences r k (cache p) <= 1) as Hocc.
    { unfold occurrences. rewrite (count_occ_not_In Z.eq_dec) in Hno.
      rewrite Hno. apply le_0_n. }
    destruct (delete_removes_when_single r k p Hocc) as [_ [_ H]].
    now apply H.
  - apply delete_removes_when_single.
Qed.

Lemma delete_removes_the_key_witness :
  let p := commentsPage (Some [comment 1 "a"; comment 2 "b"]) in
  let p' := delete comments 2 (Resolved tt) p in
  Forall (fun x => rid (page comments) x <> 2%Z) (records (cache p')) /\
  size (cache p) = size (cache p') + 1 /\
  delete_removes comments 2 p.
Proof.
  destruct (delete_removes_the_key comments 2
              (commentsPage (Some [comment 1 "a"; comment 2 "b"])))
    as [Hgone [Hsize [_ Hsingle]]].
  split; [exact Hgone | split; [exact Hsize|]].
  apply Hsingle. vm_compute. apply le_n.
Defined.

Lemma uniqueIds_occurrences (r : Resource) (k : Z) (p : PageOf r) :
  uniqueIds r (cache p) -> occurrences r k (cache p) <= 1.
Proof. apply NoDup_occurs_once. Qed.

(** C6: a second successful delete of the same id leaves the cache as the
    first one left it. *)
Theorem delete_twice_same_cache (r : Resource) (k : Z) (p : PageOf r) :
  cache (delete r k (Resolved tt) (delete r k (Resolved tt) p)) =
  cache (delete r k (Resolved tt) p).
Proof.
  rewrite (delete_cache r k (delete r k (Resolved tt) p)).
  rewrite delete_cache.
  destruct (cache p) as [l|].
  - now rewrite removeKey_twice.
  - destruct r; reflexivity.
Qed.

(** ** Failure *)

(** C4: a create, update or delete whose request fails leaves the cache
    exactly as it was, absent or populated, and the component state too:
    the error branch patches nothing, all it may do is print. *)
Theorem failed_mutation_leaves_cache (r : Resource) (error : AxiosError)
        (p : PageOf r) :
  (forall vars, untouched r p (create r vars (Rejected error) p)) /\
  (forall vars, untouched r p (update r vars (Rejected error) p)) /\
  (forall k, untouched r p (delete r k (Rejected error) p)).
Proof.
  destruct r, p as [c s out]; repeat split; cbn;
    rewrite <- ?app_assoc; eexists; (split; [reflexivity|]);
    repeat constructor.
Qed.

(** ** The invariant on ids *)

(** C5, as written, fails: on a cache with distinct ids a create answered
    with an id that is already cached yields two Records with that id, and
    so does a fetch whose listing repeats an id. *)
Lemma create_and_fetch_can_repeat_an_id :
  let p := commentsPage (Some [comment 1 "a"]) in
  uniqueIds comments (cache p) /\
  ~ create_keeps_unique comments p /\
  ~ fetch_keeps_unique comments p.
Proof.
  cbv zeta. split; [|split].
  - repeat constructor. intros [].
  - intros H. specialize (H (commentDraft "b") (comment 1 "b")).
    inversion H as [|? ? Hin _]. apply Hin. left. reflexivity.
  - intros H.
    specialize (H {| Comments.comments := [comment 1 "a"; comment 1 "b"] |}).
    inversion H as [|? ? Hin _]. apply Hin. left. reflexivity.
Qed.

(** C5 (amended): starting from a cache with at most one Record per id,
    every successful update and every successful delete yields such a cache
    again; a successful create does exactly when the id of the returned
    Record is not cached yet, and a successful fetch exactly when the
    fetched Records have distinct ids. *)
Theorem unique_ids_kept_unless_an_id_is_repeated (r : Resource) (p : PageOf r) :
  uniqueIds r (cache p) ->
  (forall listing,
      uniqueIds r (cache (fetched r listing p)) <->
      NoDup (map (rid (page r)) (listed r listing))) /\
  (forall vars reply,
      uniqueIds r (cache (create r vars (Resolved reply) p)) <->
      ~ In (rid (page r) reply) (ids r (cache p))) /\
  update_keeps_unique r p /\
  delete_keeps_unique r p.
Proof.
  intros Huniq. repeat apply conj.
  - intros listing. reflexivity.
  - intros vars reply. unfold uniqueIds, ids in *. rewrite create_cache.
    destruct r; simpl records;
      rewrite ?map_cons, ?map_app; simpl map;
      rewrite ?NoDup_cons_iff, ?NoDup_snoc; tauto.
  - intros vars reply. destruct (update_cache r vars reply p) as [u [Hu _]].
    unfold uniqueIds, ids in *.
    now rewrite (update_records r vars reply u p Hu), replaceBy_keys.
  - intros k. unfold uniqueIds, ids in *. rewrite delete_records.
    now apply removeKey_NoDup.
Qed.

Lemma unique_ids_kept_unless_an_id_is_repeated_witness :
  let p := commentsPage (Some [comment 1 "a"; comment 2 "b"]) in
  (forall listing,
      uniqueIds comments (cache (fetched comments listing p)) <->
      NoDup (map (rid (page comments)) (listed comments listing))) /\
  (forall vars reply,
      uniqueIds comments (cache (create comments vars (Resolved reply) p)) <->
      ~ In (rid (page comments) reply) (ids comments (cache p))) /\
  update_keeps_unique comments p /\
  delete_keeps_unique comments p.
Proof.
  apply (unique_ids_kept_unless_an_id_is_repeated comments
           (commentsPage (Some [comment 1 "a"; comment 2 "b"]))).
  unfold uniqueIds. simpl.
  constructor.
  - intros [E | []]. discriminate E.
  - constructor; [intros [] | constructor].
Defined.

(** * Further properties of the pages *)

(** ** How the two patches compose *)
Section PatchComposition.
Context {T : Type}.
Variable key : T -> Z.

Lemma replaceBy_same_key u v l :
  key u = key v -> replaceBy key u (replaceBy key v l) = replaceBy key u l.
Proof.
  intros E. unfold replaceBy. rewrite map_map. apply map_ext. intros x.
  destruct (Z.eqb_spec (key x) (key v)) as [Ex|Ex].
  - rewrite E, Z.eqb_refl. destruct (Z.eqb_spec (key x) (key v)); congruence.
  - destruct (Z.eqb_spec (key x) (key u)); congruence.
Qed.

Lemma replaceBy_comm u v l :
  key u <> key v ->
  replaceBy key u (replaceBy key v l) = replaceBy key v (replaceBy key u l).
Proof.
  intros N. unfold replaceBy. rewrite !map_map. apply map_ext. intros x.
  destruct (Z.eqb_spec (key x) (key v)) as [Ev|Ev];
    destruct (Z.eqb_spec (key x) (key u)) as [Eu|Eu]; try congruence.
  - destruct (Z.eqb_spec (key v) (key u)); [congruence|].
    destruct (Z.eqb_spec (key x) (key v)); congruence.
  - destruct (Z.eqb_spec (key u) (key v)); [congruence|]. reflexivity.
  - destruct (Z.eqb_spec (key x) (key v)); [congruence|].
    destruct (Z.eqb_spec (key x) (key u)); congruence.
Qed.

Lemma removeKey_comm a b l :
  removeKey key a (removeKey key b l) = removeKey key b (removeKey key a l).
Proof.
  unfold removeKey. induction l as [|x l IH]; simpl; [reflexivity|].
  destruct (Z.eqb_spec (key x) a) as [Ea|Ea];
    destruct (Z.eqb_spec (key x) b) as [Eb|Eb]; simpl;
    try destruct (Z.eqb_spec (key x) a); try destruct (Z.eqb_spec (key x) b);
    simpl; try congruence.
Qed.

Lemma removeKey_replaceBy u l :
  removeKey key (key u) (replaceBy key u l) = removeKey key (key u) l.
Proof.
  unfold removeKey, replaceBy. induction l as [|x l IH]; simpl; [reflexivity|].
  destruct (Z.eqb_spec (key x) (key u)) as [E|E]; simpl.
  - rewrite Z.eqb_refl. simpl. exact IH.
  - destruct (Z.eqb_spec (key x) (key u)); [contradiction|]. simpl.
    now rewrite IH.
Qed.

Lemma replaceBy_removeKey u l :
  replaceBy key u (removeKey key (key u) l) = removeKey key (key u) l.
Proof.
  apply replaceBy_absent. intros Hin.
  apply in_map_iff in Hin as [x [E Hx]].
  pose proof (removeKey_Forall key (key u) l) as F.
  rewrite Forall_forall in F. now apply (F x Hx).
Qed.



Lemma removeKey_In x k l : In x (removeKey key k l) <-> In x l /\ key x <> k.
Proof.
  unfold removeKey. rewrite filter_In. split; intros [H1 H2]; split; trivial.
  - destruct (Z.eqb_spec (key x) k); [discriminate | assumption].
  - destruct (Z.eqb_spec (key x) k); [contradiction | reflexivity].
Qed.
End PatchComposition.

Lemma update_cache_of (r : Resource) vars reply returned (p : PageOf r) :
  updated r vars reply = Some returned ->
  cache (update r vars (Resolved reply) p) =
  match cache p with
  | Some l => Some (replaceBy (rid (page r)) returned l)
  | None => match r with
            | todos | recipes => Some []
            | comments | posts => None
            end
  end.
Proof.
  intros Hu. destruct (update_cache r vars reply p) as [u [Hu' Hc]].
  rewrite Hu in Hu'. now injection Hu' as <-.
Qed.

(** The cache a settled mutation leaves depends on the cache it found and
    on nothing else of the page. *)
Lemma cache_only (r : Resource) (p q : PageOf r) :
  cache p = cache q ->
  (forall vars reply, cache (create r vars reply p) = cache (create r vars reply q)) /\
  (forall vars reply, cache (update r vars reply p) = cache (update r vars reply q)) /\
  (forall k reply, cache (delete r k reply p) = cache (delete r k reply q)).
Proof.
  destruct p as [c s out], q as [c' s' out']. simpl. intros <-.
  repeat split; intros x [d|e]; destruct r; try destruct d; destruct c; reflexivity.
Qed.

Lemma rejected_cache (r : Resource) (error : AxiosError) (p : PageOf r) :
  (forall vars, cache (create r vars (Rejected error) p) = cache p) /\
  (forall vars, cache (update r vars (Rejected error) p) = cache p) /\
  (forall k, cache (delete r k (Rejected error) p) = cache p).
Proof. destruct r, p as [c s out]; repeat split. Qed.

Lemma update_same_key_cache (r : Resource)
      (vars1 reply1 returned1 vars2 reply2 returned2 : Rec (page r))
      (p : PageOf r) :
  updated r vars1 reply1 = Some returned1 ->
  updated r vars2 reply2 = Some returned2 ->
  rid (page r) returned1 = rid (page r) returned2 ->
  cache (update r vars2 (Resolved reply2) (update r vars1 (Resolved reply1) p)) =
  cache (update r vars2 (Resolved reply2) p).
Proof.
  intros H1 H2 E.
  rewrite (update_cache_of r vars2 reply2 returned2
             (update r vars1 (Resolved reply1) p) H2).
  rewrite (update_cache_of r vars1 reply1 returned1 p H1).
  rewrite (update_cache_of r vars2 reply2 returned2 p H2).
  destruct (cache p) as [l|].
  - f_equal. apply replaceBy_same_key. congruence.
  - destruct r; reflexivity.
Qed.

(** ** Mutations that settle one after the other *)

(** X1: of two successful updates whose returned Records carry the same
    id, the one that settles last decides the cache: the result is the
    cache the second update alone would have left. *)
Theorem update_last_write_wins (r : Resource)
        (vars1 reply1 returned1 vars2 reply2 returned2 : Rec (page r))
        (p : PageOf r) :
  updated r vars1 reply1 = Some returned1 ->
  updated r vars2 reply2 = Some returned2 ->
  rid (page r) returned1 = rid (page r) returned2 ->
  cache (update r vars2 (Resolved reply2) (update r vars1 (Resolved reply1) p)) =
  cache (update r vars2 (Resolved reply2) p).
Proof.
  apply update_same_key_cache.
Qed.

Lemma update_last_write_wins_witness :
  cache (update comments (comment 1 "y") (Resolved (comment 1 "y"))
           (update comments (comment 1 "x") (Resolved (comment 1 "x"))
              (commentsPage (Some [comment 1 "a"; comment 2 "b"])))) =
  cache (update comments (comment 1 "y") (Resolved (comment 1 "y"))
           (commentsPage (Some [comment 1 "a"; comment 2 "b"]))).
Proof.
  apply (update_last_write_wins comments
           (comment 1 "x") (comment 1 "x") (comment 1 "x")
           (comment 1 "y") (comment 1 "y") (comment 1 "y")
           (commentsPage (Some [comment 1 "a"; comment 2 "b"])));
    reflexivity.
Defined.

(** X2: a successful update applied a second time, with the same call and
    the same reply, changes nothing more. *)
Theorem update_twice_same_cache (r : Resource) (vars reply : Rec (page r))
        (p : PageOf r) :
  cache (update r vars (Resolved reply) (update r vars (Resolved reply) p)) =
  cache (update r vars (Resolved reply) p).
Proof.
  destruct (update_cache r vars reply p) as [u [Hu _]].
  now apply (update_same_key_cache r vars reply u vars reply u p).
Qed.

(** X3: two successful updates whose returned Records carry different ids
    leave the same cache in whichever order they settle. *)
Theorem updates_of_distinct_ids_commute (r : Resource)
        (vars1 reply1 returned1 vars2 reply2 returned2 : Rec (page r))
        (p : PageOf r) :
  updated r vars1 reply1 = Some returned1 ->
  updated r vars2 reply2 = Some returned2 ->
  rid (page r) returned1 <> rid (page r) returned2 ->
  cache (update r vars2 (Resolved reply2) (update r vars1 (Resolved reply1) p)) =
  cache (update r vars1 (Resolved reply1) (update r vars2 (Resolved reply2) p)).
Proof.
  intros H1 H2 N.
  rewrite (update_cache_of r vars2 reply2 returned2
             (update r vars1 (Resolved reply1) p) H2).
  rewrite (update_cache_of r vars1 reply1 returned1
             (update r vars2 (Resolved reply2) p) H1).
  rewrite (update_cache_of r vars1 reply1 returned1 p H1).
  rewrite (update_cache_of r vars2 reply2 returned2 p H2).
  destruct (cache p) as [l|].
  - f_equal. apply replaceBy_comm. congruence.
  - destruct r; reflexivity.
Qed.

Lemma updates_of_distinct_ids_commute_witness :
  cache (update posts (post 2 "y") (Resolved (post 2 "y"))
           (update posts (post 1 "x") (Resolved (post 1 "x"))
              (postsPage (Some [post 1 "a"; post 2 "b"])))) =
  cache (update posts (post 1 "x") (Resolved (post 1 "x"))
           (update posts (post 2 "y") (Resolved (post 2 "y"))
              (postsPage (Some [post 1 "a"; post 2 "b"])))).
Proof.
  apply (updates_of_distinct_ids_commute posts
           (post 1 "x") (post 1 "x") (post 1 "x")
           (post 2 "y") (post 2 "y") (post 2 "y")
           (postsPage (Some [post 1 "a"; post 2 "b"]))).
  - reflexivity.
  - reflexivity.
  - simpl. intros E. discriminate E.
Defined.

(** X4: two successful deletes leave the same cache in whichever order
    they settle. *)
Theorem deletes_commute (r : Resource) (k1 k2 : Z) (p : PageOf r) :
  cache (delete r k2 (Resolved tt) (delete r k1 (Resolved tt) p)) =
  cache (delete r k1 (Resolved tt) (delete r k2 (Resolved tt) p)).
Proof.
  rewrite !delete_cache. destruct (cache p) as [l|].
  - f_equal. apply removeKey_comm.
  - destruct r; reflexivity.
Qed.

(** X5: a successful update never changes which keys are cached nor their
    order. *)
Theorem update_keeps_ids (r : Resource) (vars reply : Rec (page r))
        (p : PageOf r) :
  ids r (cache (update r vars (Resolved reply) p)) = ids r (cache p).
Proof.
  destruct (update_cache r vars reply p) as [u [Hu _]].
  unfold ids. rewrite (update_records r vars reply u p Hu).
  apply replaceBy_keys.
Qed.

(** X6: a delete and an update for the same key, both successful: in
    whichever order they settle, the Records left are those the delete
    alone leaves; an update that settles after the delete does not bring
    the Record back. *)
Theorem delete_wins_over_update (r : Resource) (vars reply returned : Rec (page r))
        (p : PageOf r) :
  updated r vars reply = Some returned ->
  let k := rid (page r) returned in
  let deleted := records (cache (delete r k (Resolved tt) p)) in
  records (cache (update r vars (Resolved reply) (delete r k (Resolved tt) p)))
  = deleted /\
  records (cache (delete r k (Resolved tt) (update r vars (Resolved reply) p)))
  = deleted.
Proof.
  intros Hu. cbv zeta. split.
  - rewrite (update_records r vars reply returned _ Hu), delete_records.
    apply replaceBy_removeKey.
  - rewrite !delete_records, (update_records r vars reply returned _ Hu).
    apply removeKey_replaceBy.
Qed.

Lemma delete_wins_over_update_witness :
  let p := todosPage (Some [todoItem 1 "a" false; todoItem 2 "b" false]) in
  let late := update todos (todoItem 1 "a" true) (Resolved (todoItem 1 "a" true)) in
  records (cache (late (delete todos 1 (Resolved tt) p)))
  = records (cache (delete todos 1 (Resolved tt) p)) /\
  records (cache (delete todos 1 (Resolved tt) (late p)))
  = records (cache (delete todos 1 (Resolved tt) p)).
Proof.
  apply (delete_wins_over_update todos
           (todoItem 1 "a" true) (todoItem 1 "a" true) (todoItem 1 "a" true)
           (todosPage (Some [todoItem 1 "a" false; todoItem 2 "b" false]))).
  reflexivity.
Defined.

(** X7: deleting the Record a successful create has just inserted, by the
    id the server gave it, restores the Records that were cached before,
    provided that id was not cached already. *)
Theorem create_then_delete_restores (r : Resource) (vars : Draft (page r))
        (reply : Rec (page r)) (p : PageOf r) :
  ~ In (rid (page r) reply) (ids r (cache p)) ->
  records (cache (delete r (rid (page r) reply) (Resolved tt)
                         (create r vars (Resolved reply) p))) =
  records (cache p).
Proof.
  intros Hno. rewrite delete_records, create_cache.
  unfold ids in Hno.
  pose proof (removeKey_absent (rid (page r)) (rid (page r) reply)
                               (records (cache p)) Hno) as Hold.
  destruct r; simpl records; unfold removeKey in *; simpl;
    rewrite ?filter_app; simpl; rewrite Z.eqb_refl; simpl;
    rewrite ?app_nil_r; exact Hold.
Qed.

Lemma create_then_delete_restores_witness :
  records (cache (delete posts 9 (Resolved tt)
                         (create posts Posts.blankDraft (Resolved (post 9 "n"))
                                 (postsPage (Some [post 1 "a"]))))) =
  [post 1 "a"].
Proof.
  apply (create_then_delete_restores posts Posts.blankDraft (post 9 "n")
           (postsPage (Some [post 1 "a"]))).
  simpl. intros [E | []]. discriminate E.
Defined.

(** X8: the Delete button of a displayed Record, once the request has
    succeeded, takes that Record off the list, and the list gets strictly
    shorter. *)
Theorem delete_of_displayed_record_shrinks (r : Resource) (x : Rec (page r))
        (p : PageOf r) :
  In x (records (cache p)) ->
  let p' := delete r (rid (page r) x) (Resolved tt) p in
  ~ In x (records (cache p')) /\ size (cache p') < size (cache p).
Proof.
  intros Hx. cbv zeta. split.
  - rewrite delete_records. intros Hin.
    apply removeKey_In in Hin as [_ N]. now apply N.
  - rewrite (delete_size r (rid (page r) x) p).
    assert (In (rid (page r) x) (ids r (cache p))) as Hk
        by (unfold ids; now apply in_map).
    apply (count_occ_In Z.eq_dec) in Hk. unfold occurrences. lia.
Qed.

Lemma delete_of_displayed_record_shrinks_witness :
  let p := commentsPage (Some [comment 1 "a"; comment 2 "b"]) in
  let p' := delete comments 2 (Resolved tt) p in
  ~ In (comment 2 "b") (records (cache p')) /\ size (cache p') < size (cache p).
Proof.
  apply (delete_of_displayed_record_shrinks comments (comment 2 "b")
           (commentsPage (Some [comment 1 "a"; comment 2 "b"]))).
  simpl. right. left. reflexivity.
Defined.

(** X9: after a create, update or delete that failed, the same call
    repeated with success leaves the cache that the successful call alone
    would have left. *)
Theorem retry_after_failure (r : Resource) (error : AxiosError) (p : PageOf r) :
  (forall vars reply,
      cache (create r vars (Resolved reply) (create r vars (Rejected error) p)) =
      cache (create r vars (Resolved reply) p)) /\
  (forall vars reply,
      cache (update r vars (Resolved reply) (update r vars (Rejected error) p)) =
      cache (update r vars (Resolved reply) p)) /\
  (forall k,
      cache (delete r k (Resolved tt) (delete r k (Rejected error) p)) =
      cache (delete r k (Resolved tt) p)).
Proof.
  destruct (rejected_cache r error p) as [Hc [Hu Hd]].
  repeat split.
  - intros vars reply. apply (cache_only r _ p (Hc vars)).
  - intros vars reply. apply (cache_only r _ p (Hu vars)).
  - intros k. apply (cache_only r _ p (Hd k)).
Qed.

Lemma createAll_cons (r : Resource) vars reply replies (p : PageOf r) :
  createAll r vars (reply :: replies) p =
  createAll r vars replies (create r vars (Resolved reply) p).
Proof. reflexivity. Qed.

(** X10: successful creates one after the other: comments and todos show
    the newest first, posts and recipes the oldest first, each time with
    the Records cached before kept together, after or before them. *)
Theorem creates_in_a_row (r : Resource) (vars : Draft (page r))
        (replies : list (Rec (page r))) (p : PageOf r) :
  records (cache (createAll r vars replies p)) =
  match r with
  | comments | todos => rev replies ++ records (cache p)
  | posts | recipes => records (cache p) ++ replies
  end.
Proof.
  revert p. induction replies as [|reply replies IH]; intros p.
  - destruct r; simpl; now rewrite ?app_nil_r.
  - rewrite createAll_cons, IH, create_cache.
    destruct r; simpl records; simpl rev; now rewrite <- app_assoc.
Qed.

(** ** The comma-separated inputs *)

Lemma commaSplit_cons (s : string) :
  exists piece pieces, commaSplit s = piece :: pieces.
Proof.
  destruct s as [|c rest]; simpl; [now eauto|].
  destruct rest as [|c' rest'].
  - simpl. now eauto.
  - destruct (Ascii.eqb c "," && Ascii.eqb c' " ")%bool; [now eauto|].
    destruct (commaSplit (String c' rest')); now eauto.
Qed.

Lemma commaJoin_push (c : ascii) (piece : string) (pieces : list string) :
  commaJoin (String c piece :: pieces) = String c (commaJoin (piece :: pieces)).
Proof. unfold commaJoin. destruct pieces; reflexivity. Qed.

Lemma commaJoin_empty_first (piece : string) (pieces : list string) :
  commaJoin (EmptyString :: piece :: pieces) =
  String "," (String " " (commaJoin (piece :: pieces))).
Proof. reflexivity. Qed.

Lemma commaSplit_unfold (c c' : ascii) (rest' : string) :
  commaSplit (String c (String c' rest')) =
  if (Ascii.eqb c "," && Ascii.eqb c' " ")%bool
  then EmptyString :: commaSplit rest'
  else match commaSplit (String c' rest') with
       | piece :: pieces => String c piece :: pieces
       | [] => [String c EmptyString]
       end.
Proof. reflexivity. Qed.

Lemma commaSplit_step (c : ascii) (rest : string) :
  (exists rest', rest = String " " rest' /\ c = ","%char /\
                 commaSplit (String c rest) = EmptyString :: commaSplit rest') \/
  (exists piece pieces, commaSplit rest = piece :: pieces /\
                        commaSplit (String c rest) = String c piece :: pieces).
Proof.
  destruct rest as [|c' rest'].
  - right. exists EmptyString, []. split; reflexivity.
  - rewrite commaSplit_unfold.
    destruct (Ascii.eqb c "," && Ascii.eqb c' " ")%bool eqn:E.
    + left. apply andb_true_iff in E as [E1 E2].
      apply Ascii.eqb_eq in E1, E2. subst. exists rest'. repeat split.
    + right. destruct (commaSplit_cons (String c' rest')) as [x [xs Ex]].
      exists x, xs. split; [exact Ex | now rewrite Ex].
Qed.

Lemma commaJoin_commaSplit (s : string) : commaJoin (commaSplit s) = s.
Proof.
  cut (commaJoin (commaSplit s) = s /\
       forall c, commaJoin (commaSplit (String c s)) = String c s).
  { now intros [H _]. }
  induction s as [|a s [IHs IHc]].
  - split; [reflexivity|]. intros c. reflexivity.
  - split; [apply IHc|]. intros c.
    destruct (commaSplit_step c (String a s)) as
        [[rest' [E [Ec Hs]]] | [piece [pieces [E Hs]]]].
    + injection E as -> ->. subst c. rewrite Hs.
      destruct (commaSplit_cons rest') as [x [xs Ex]].
      rewrite Ex, commaJoin_empty_first, <- Ex, IHs. reflexivity.
    + rewrite Hs, commaJoin_push, <- E. now rewrite IHc.
Qed.

Lemma commaSplit_plain (x : string) :
  hasCommaSpace x = false -> commaSplit x = [x].
Proof.
  induction x as [|c x IH]; [reflexivity|].
  destruct x as [|c' x'].
  - reflexivity.
  - intros H. simpl in H. apply orb_false_iff in H as [Hc Hx].
    rewrite commaSplit_unfold, Hc, (IH Hx). reflexivity.
Qed.

Lemma commaSplit_piece (x rest : string) :
  hasCommaSpace x = false ->
  commaSplit (x ++ String "," (String " " rest)) = x :: commaSplit rest.
Proof.
  induction x as [|c x IH]; [reflexivity|].
  destruct x as [|c' x'].
  - intros _. simpl append. rewrite commaSplit_unfold.
    replace (Ascii.eqb "," " ") with false by reflexivity.
    rewrite andb_false_r. reflexivity.
  - intros H. simpl in H. apply orb_false_iff in H as [Hc Hx].
    specialize (IH Hx). simpl append in *.
    rewrite commaSplit_unfold, Hc, IH. reflexivity.
Qed.

Lemma commaSplit_commaJoin (l : list string) :
  l <> [] -> Forall (fun x => hasCommaSpace x = false) l ->
  commaSplit (commaJoin l) = l.
Proof.
  induction l as [|x l IH]; [congruence|]. intros _ F.
  inversion F as [|? ? Hx Hl]; subst. destruct l as [|y l].
  - now apply commaSplit_plain.
  - change (commaJoin (x :: y :: l)) with
      (x ++ String "," (String " " (commaJoin (y :: l))))%string.
    rewrite (commaSplit_piece x _ Hx), IH; [reflexivity | congruence | assumption].
Qed.

(** X11: the three comma-separated inputs (tags of the new post, tags of
    the post being edited, ingredients of the recipe form) show, after
    their [onChange], exactly the text that was typed. *)
Theorem comma_inputs_show_what_was_typed (typed : string) :
  (forall p : PageOf posts,
      Posts.tagsValue (local (Posts.changeTags typed p)) = typed) /\
  (forall p : PageOf posts,
      Posts.editTagsValue (local (Posts.changeEditTags typed p)) =
      option_map (fun _ => typed) (Posts.editPost (local p))) /\
  (forall p : PageOf recipes,
      Recipes.ingredientsValue (local (Recipes.changeIngredients typed p)) = typed).
Proof.
  repeat split; intros p.
  - apply commaJoin_commaSplit.
  - destruct p as [c [d [e|]] out]; [|reflexivity].
    unfold Posts.changeEditTags, Posts.editTagsValue. simpl.
    f_equal. apply commaJoin_commaSplit.
  - apply commaJoin_commaSplit.
Qed.

Lemma typing_keeps_ingredients (later : list RecipeForm.Event) (s : RecipeForm.State) :
  forallb RecipeForm.isTyping later = true ->
  RecipeForm.ingredients (RecipeForm.recipeForm s) <> [] ->
  RecipeForm.ingredients
    (RecipeForm.recipeForm (fold_left RecipeForm.step later s)) <> [].
Proof.
  revert s. induction later as [|e later IH]; intros s Ht Hs; [exact Hs|].
  simpl in Ht. apply andb_true_iff in Ht as [He Hl].
  simpl. apply IH; [exact Hl|].
  destruct e; try discriminate He; simpl; trivial.
  destruct (commaSplit_cons typed) as [x [xs E]]. rewrite E. discriminate.
Qed.

(** X12: whatever is typed into the tags input of the new post or the
    ingredients input of the recipe form, the list right after the
    [onChange] is not empty, since [split] never yields an empty array: an
    emptied input stands for one empty tag or ingredient.  On the recipes
    page the list then stays non-empty through any further typing into the
    three inputs, so only a handler that resets or replaces the form
    (submit, Cancel, a successful update, Edit) brings the empty list of
    the initial form back. *)
Theorem typing_never_gives_the_empty_list (typed : string) :
  commaSplit typed <> [] /\
  (forall p : PageOf posts,
      Posts.draft_tags (Posts.newPost (local (Posts.changeTags typed p))) <> []) /\
  (forall p : PageOf recipes,
      Recipes.ingredients
        (Recipes.recipeForm (local (Recipes.changeIngredients typed p))) <> []) /\
  (forall before later : list RecipeForm.Event,
      forallb RecipeForm.isTyping later = true ->
      RecipeForm.ingredients
        (RecipeForm.recipeForm
           (RecipeForm.run
              (before ++ RecipeForm.ChangeIngredients typed :: later))) <> []).
Proof.
  assert (commaSplit typed <> []) as H.
  { destruct (commaSplit_cons typed) as [x [xs E]]. rewrite E. discriminate. }
  split; [exact H | split; [intros p; exact H | split; [intros p; exact H|]]].
  intros before later Ht. unfold RecipeForm.run.
  rewrite fold_left_app. simpl fold_left.
  apply typing_keeps_ingredients; [exact Ht | exact H].
Qed.

Lemma typing_never_gives_the_empty_list_witness :
  RecipeForm.ingredients
    (RecipeForm.recipeForm
       (RecipeForm.run
          ([RecipeForm.Submit] ++
           RecipeForm.ChangeIngredients EmptyString ::
           [RecipeForm.ChangeName "x"; RecipeForm.ChangeIngredients EmptyString])))
  <> [].
Proof.
  destruct (typing_never_gives_the_empty_list EmptyString) as [_ [_ [_ H]]].
  apply (H [RecipeForm.Submit]
           [RecipeForm.ChangeName "x"; RecipeForm.ChangeIngredients EmptyString]).
  reflexivity.
Defined.

Example reset_gives_the_empty_list_back :
  RecipeForm.ingredients
    (RecipeForm.recipeForm
       (RecipeForm.run [RecipeForm.ChangeIngredients "salt"; RecipeForm.Submit]))
  = [] /\
  Posts.draft_tags
    (Posts.newPost
       (local (Posts.submitNewPost (Rejected NetworkError)
                 (Posts.changeTags "news" (postsPage None))))) = [].
Proof. split; reflexivity. Qed.

(** X13: reading back the text that the input shows for a list gives the
    list again, provided the list is not empty and none of its elements
    contains a comma followed by a space. *)
Theorem shown_list_reads_back (l : list string) :
  l <> [] ->
  Forall (fun x => hasCommaSpace x = false) l ->
  commaSplit (commaJoin l) = l.
Proof. apply commaSplit_commaJoin. Qed.

Lemma shown_list_reads_back_witness :
  commaSplit (commaJoin ["flour"; "eggs,"; " milk"]%string) = ["flour"; "eggs,"; " milk"]%string.
Proof.
  apply (shown_list_reads_back ["flour"; "eggs,"; " milk"]%string).
  - intros E. discriminate E.
  - repeat constructor.
Defined.

Example empty_list_reads_back_as_one_empty_item :
  commaSplit (commaJoin []) = [EmptyString].
Proof. reflexivity. Qed.

Example item_with_separator_reads_back_as_two :
  commaSplit (commaJoin ["salt, pepper"%string]) = ["salt"; "pepper"]%string.
Proof. reflexivity. Qed.

(** ** The forms *)

(** X14: on the comments and todos pages an add whose request fails leaves
    cache and form as they were, the draft included, whatever [trim]
    makes of the draft. *)
Theorem failed_add_keeps_the_draft (trim : string -> string) (error : AxiosError) :
  (forall p : PageOf comments,
      let p' := Comments.handleAddComment trim (Rejected error) p in
      cache p' = cache p /\ local p' = local p) /\
  (forall p : PageOf todos,
      let p' := Todos.handleAddTodo trim (Rejected error) p in
      cache p' = cache p /\ local p' = local p).
Proof.
  split; intros p; cbv zeta.
  - unfold Comments.handleAddComment.
    destruct (trim _); destruct p; split; reflexivity.
  - unfold Todos.handleAddTodo.
    destruct (trim _); destruct p; split; reflexivity.
Qed.

(** X15: on the posts and recipes pages a submit leaves the form cleared
    whether the request succeeds or fails, and when it fails the cache is
    as it was: the submitted draft is then nowhere on the page. *)
Theorem submit_clears_the_form_whatever_the_outcome :
  (forall (reply : Settled Posts.Post) (p : PageOf posts),
      Posts.newPost (local (Posts.submitNewPost reply p)) = Posts.blankDraft) /\
  (forall (reply : Settled Recipes.Recipe) (p : PageOf recipes),
      local (Recipes.handleSubmit reply p) =
      {| Recipes.recipeForm := Recipes.emptyForm; Recipes.editing := false |}) /\
  (forall (error : AxiosError) (p : PageOf posts),
      cache (Posts.submitNewPost (Rejected error) p) = cache p) /\
  (forall (error : AxiosError) (p : PageOf recipes),
      cache (Recipes.handleSubmit (Rejected error) p) = cache p).
Proof.
  split; [|split; [|split]].
  - intros [d|e] [[l|] s out]; reflexivity.
  - intros [d|e] [[l|] [f []] out]; reflexivity.
  - intros e [c s out]. reflexivity.
  - intros e [c [f []] out]; reflexivity.
Qed.





(** ** The form of the recipes page *)

Lemma recipe_form_invariant_step (s : RecipeForm.State) (e : RecipeForm.Event) :
  (exists k, RecipeForm.id (RecipeForm.recipeForm s) = Some k) /\
  (RecipeForm.editing s = false ->
   RecipeForm.id (RecipeForm.recipeForm s) = Some 0%Z) ->
  (exists k, RecipeForm.id (RecipeForm.recipeForm (RecipeForm.step s e)) = Some k) /\
  (RecipeForm.editing (RecipeForm.step s e) = false ->
   RecipeForm.id (RecipeForm.recipeForm (RecipeForm.step s e)) = Some 0%Z).
Proof.
  intros [[k Hk] H0]. destruct e; simpl; (split; [now eauto | now auto]).
Qed.

Lemma recipe_form_invariant_run (events : list RecipeForm.Event) (s : RecipeForm.State) :
  (exists k, RecipeForm.id (RecipeForm.recipeForm s) = Some k) /\
  (RecipeForm.editing s = false ->
   RecipeForm.id (RecipeForm.recipeForm s) = Some 0%Z) ->
  let s' := fold_left RecipeForm.step events s in
  (exists k, RecipeForm.id (RecipeForm.recipeForm s') = Some k) /\
  (RecipeForm.editing s' = false ->
   RecipeForm.id (RecipeForm.recipeForm s') = Some 0%Z).
Proof.
  revert s. induction events as [|e events IH]; intros s H; [exact H|].
  simpl. apply IH. now apply recipe_form_invariant_step.
Qed.

(** X17: whatever the user does on the recipes page, the form holds a
    whole Recipe, id included, although its declared type allows an object
    without id: the test [editing && "id" in recipeForm] of [handleSubmit]
    is decided by [editing] alone, the cast [recipeForm as Recipe] is
    sound, and unless an edit is open the id in the form is 0. *)
Theorem recipe_form_always_has_an_id (events : list RecipeForm.Event) :
  let s := RecipeForm.run events in
  (exists recipe, RecipeForm.recipeForm s = RecipeForm.ofRecipe recipe) /\
  RecipeForm.takesUpdateBranch s = RecipeForm.editing s /\
  (RecipeForm.editing s = true \/
   RecipeForm.id (RecipeForm.recipeForm s) = Some 0%Z).
Proof.
  cbv zeta. unfold RecipeForm.run.
  destruct (recipe_form_invariant_run events RecipeForm.initial) as [[k Hk] H0].
  { split; [now exists 0%Z | reflexivity]. }
  repeat split.
  - destruct (RecipeForm.recipeForm (fold_left RecipeForm.step events RecipeForm.initial))
      as [i n g t] eqn:E. simpl in Hk. subst i.
    exists {| Recipes.id := k; Recipes.name := n; Recipes.ingredients := g;
              Recipes.instructions := t |}. reflexivity.
  - unfold RecipeForm.takesUpdateBranch. rewrite Hk. apply andb_true_r.
  - destruct (RecipeForm.editing (fold_left RecipeForm.step events RecipeForm.initial));
      [now left | right; now apply H0].
Qed.

(** X18: on the recipes page a successful submit adds exactly one Record
    when no edit is open and none when one is: saving changes never makes
    the list longer or shorter. *)
Theorem recipe_submit_size (reply : Recipes.Recipe) (p : PageOf recipes) :
  size (cache (Recipes.handleSubmit (Resolved reply) p)) =
  size (cache p) + (if Recipes.editing (local p) then 0 else 1).
Proof.
  destruct p as [[l|] [f []] out]; unfold size; simpl;
    rewrite ?length_map, ?length_app; simpl; lia.
Qed.

(** X19: what a successful update leaves in the cache depends on the call
    only through its id: the other fields of the Record that was sent are
    nowhere in the cache, which shows what the server answered. *)
Theorem update_uses_only_the_id_of_the_call (r : Resource)
        (vars vars' reply : Rec (page r)) (p : PageOf r) :
  rid (page r) vars = rid (page r) vars' ->
  cache (update r vars (Resolved reply) p) =
  cache (update r vars' (Resolved reply) p).
Proof.
  destruct r, p as [[l|] s out]; simpl; intros E; try reflexivity;
    now rewrite E.
Qed.

Lemma update_uses_only_the_id_of_the_call_witness :
  cache (update comments (comment 1 "typed") (Resolved (comment 1 "stored"))
                (commentsPage (Some [comment 1 "a"]))) =
  cache (update comments (comment 1 "other") (Resolved (comment 1 "stored"))
                (commentsPage (Some [comment 1 "a"]))).
Proof.
  apply (update_uses_only_the_id_of_the_call comments
           (comment 1 "typed") (comment 1 "other") (comment 1 "stored")
           (commentsPage (Some [comment 1 "a"]))).
  reflexivity.
Defined.
